(** * The todo store of [src/App.tsx]

    A shallow embedding of the state logic of the [App] component: the three
    [useState] cells ([count], [todos], [inputValue]), the four callbacks
    ([increment], [addTodo], [toggleTodo], [deleteTodo]), the two
    [useMemo] views ([expensiveTodoComputation], [completedTodosCount]), the
    [TodoItem] component with the calls its buttons make, and the [onKeyDown]
    handler of the text input.

    Conventions.
    - A JavaScript string is its sequence of UTF-16 code units ([list N]).
    - [count] and [id] are JavaScript numbers that only ever hold integers
      ([0], [c + 1], [Date.now()]); they are modelled by [Z], exact below
      [2^53].
    - [Date.now()] is an input of the environment: the reading is a parameter
      of [addTodo].
    - An array has an identity besides its contents.  The [todos] cell keeps
      both: [todos] is the contents, [todosRef] the identity of the array
      object, and [nextRef] the next identity that an allocation hands out.
      [useMemo] compares identities ([Object.is]), not contents. *)

From Stdlib Require Import String Ascii.
From Stdlib Require Import ZArith NArith List Bool Lia.
Import Corelib.Init.Datatypes.
Import ListNotations.
Open Scope Z_scope.

(** ** Strings and [String.prototype.trim] *)

Module JsString.

Definition t := list N.

(** Code units removed by [trim]: ECMAScript WhiteSpace (TAB, VT, FF, SP,
    NBSP, ZWNBSP and the Unicode category Zs) and LineTerminator (LF, CR,
    LS, PS).  All of them are single code units of the BMP. *)
Definition isWhiteSpace (c : N) : bool :=
  ((9 <=? c) && (c <=? 13) ||
   (c =? 32) || (c =? 160) || (c =? 5760) ||
   ((8192 <=? c) && (c <=? 8202)) ||
   (c =? 8232) || (c =? 8233) || (c =? 8239) || (c =? 8287) ||
   (c =? 12288) || (c =? 65279))%N.

Fixpoint trimStart (s : t) : t :=
  match s with
  | [] => []
  | c :: s' => if isWhiteSpace c then trimStart s' else s
  end.

Definition trimEnd (s : t) : t := rev (trimStart (rev s)).

Definition trim (s : t) : t := trimEnd (trimStart s).

(** Truthiness of a string: only the empty string is falsy. *)
Definition truthy (s : t) : bool :=
  match s with [] => false | _ :: _ => true end.

Fixpoint of_string (s : String.string) : t :=
  match s with
  | String.EmptyString => []
  | String.String a s' => N_of_ascii a :: of_string s'
  end.

End JsString.

Definition jsstring : Type := JsString.t.
Definition js (s : String.string) : jsstring := JsString.of_string s.
Arguments js s%_string.

(** ** Data model *)

Record Todo := mkTodo {
  id : Z;
  text : jsstring;
  completed : bool
}.

Record AppState := mkState {
  count : Z;
  todos : list Todo;
  todosRef : nat;
  nextRef : nat;
  inputValue : jsstring
}.

(** [useState(0)], [useState<Todo[]>([])], [useState('')]. *)
Definition initialState : AppState :=
  mkState 0 [] 0%nat 1%nat [].

(** [setTodos(prev => f prev)] where [f] builds a new array: the cell takes
    the new contents and the identity of the array just allocated. *)
Definition setTodos (f : list Todo -> list Todo) (st : AppState) : AppState :=
  mkState (count st) (f (todos st)) (nextRef st) (S (nextRef st))
          (inputValue st).

Definition setCount (f : Z -> Z) (st : AppState) : AppState :=
  mkState (f (count st)) (todos st) (todosRef st) (nextRef st)
          (inputValue st).

Definition setInputValue (s : jsstring) (st : AppState) : AppState :=
  mkState (count st) (todos st) (todosRef st) (nextRef st) s.

(** ** The callbacks *)

(** [setCount(c => c + 1)] *)
Definition increment (st : AppState) : AppState :=
  setCount (fun c => c + 1) st.

(** [if (inputValue.trim()) { newTodo = {id: Date.now(), text: inputValue,
    completed: false}; setTodos(prev => [...prev, newTodo]);
    setInputValue('') }] *)
Definition addTodo (now : Z) (st : AppState) : AppState :=
  if JsString.truthy (JsString.trim (inputValue st)) then
    let newTodo := mkTodo now (inputValue st) false in
    setInputValue [] (setTodos (fun prev => prev ++ [newTodo]) st)
  else st.

(** [todo.id === id ? { ...todo, completed: !todo.completed } : todo] *)
Definition toggleOne (i : Z) (todo : Todo) : Todo :=
  if id todo =? i
  then mkTodo (id todo) (text todo) (negb (completed todo))
  else todo.

(** [prev.map(todo => ...)] *)
Definition toggleList (i : Z) (prev : list Todo) : list Todo :=
  map (toggleOne i) prev.

Definition toggleTodo (i : Z) (st : AppState) : AppState :=
  setTodos (toggleList i) st.

(** [prev.filter(todo => todo.id !== id)] *)
Definition deleteList (i : Z) (prev : list Todo) : list Todo :=
  filter (fun todo => negb (id todo =? i)) prev.

Definition deleteTodo (i : Z) (st : AppState) : AppState :=
  setTodos (deleteList i) st.

(** ** Derived views *)

(** [todos.length], shown as "Total Todos". *)
Definition totalCount (l : list Todo) : nat := length l.

(** [todos.length * 100] *)
Definition expensiveTodoComputation (l : list Todo) : nat :=
  (length l * 100)%nat.

(** [todos.filter(todo => todo.completed).length] *)
Definition completedTodosCount (l : list Todo) : nat :=
  length (filter (fun todo => completed todo) l).

(** ** Rendering: the two [useMemo] cells

    A cell remembers the identity of the [todos] array it was computed from
    together with the value.  [useMemo(f, [todos])] calls [f] again only when
    the identity differs from the remembered one. *)

Definition MemoCell : Type := option (nat * nat).

Definition useMemo (value : nat) (dep : nat) (cell : MemoCell)
  : MemoCell * bool :=
  match cell with
  | Some (d, v) => if Nat.eqb d dep then (Some (d, v), false)
                   else (Some (dep, value), true)
  | None => (Some (dep, value), true)
  end.

Record Hooks := mkHooks {
  expensiveCell : MemoCell;
  completedCell : MemoCell;
  consoleLines : nat
}.

Definition firstRender : Hooks := mkHooks None None 0%nat.

(** One execution of the body of [App]; [consoleLines] counts the lines
    ['Performing expensive todo computation'] written so far. *)
Definition render (st : AppState) (h : Hooks) : Hooks :=
  let (c1, ran1) :=
    useMemo (expensiveTodoComputation (todos st)) (todosRef st)
            (expensiveCell h) in
  let (c2, _) :=
    useMemo (completedTodosCount (todos st)) (todosRef st)
            (completedCell h) in
  mkHooks c1 c2 (if ran1 then S (consoleLines h) else consoleLines h).

(** ** Sessions: user events applied one after the other *)

Inductive Event : Type :=
| Increment                      (* click on "Increment" *)
| Change (s : jsstring)          (* [onChange] of the text input *)
| AddTodo (now : Z)              (* click on "Add Todo" or Enter *)
| ToggleTodo (i : Z)
| DeleteTodo (i : Z).

Definition step (st : AppState) (e : Event) : AppState :=
  match e with
  | Increment => increment st
  | Change s => setInputValue s st
  | AddTodo now => addTodo now st
  | ToggleTodo i => toggleTodo i st
  | DeleteTodo i => deleteTodo i st
  end.

Definition run (evs : list Event) (st : AppState) : AppState :=
  fold_left step evs st.

Definition ids (l : list Todo) : list Z := map id l.

Definition hasId (i : Z) (l : list Todo) : bool :=
  existsb (fun todo => id todo =? i) l.

(** Number of [addTodo] calls of the session made with a text whose trim is
    not empty. *)
Fixpoint acceptedAdds (evs : list Event) (st : AppState) : nat :=
  match evs with
  | [] => 0%nat
  | e :: evs' =>
      ((match e with
        | AddTodo _ =>
            if JsString.truthy (JsString.trim (inputValue st)) then 1 else 0
        | _ => 0
        end) + acceptedAdds evs' (step st e))%nat
  end.

(** Number of [deleteTodo] calls of the session whose id was in the sequence
    at the time of the call. *)
Fixpoint successfulDeletes (evs : list Event) (st : AppState) : nat :=
  match evs with
  | [] => 0%nat
  | e :: evs' =>
      ((match e with
        | DeleteTodo i => if hasId i (todos st) then 1 else 0
        | _ => 0
        end) + successfulDeletes evs' (step st e))%nat
  end.

(** The readings of [Date.now()] at successive [addTodo] calls increase
    strictly, starting above [lo]. *)
Fixpoint clockIncreasing (lo : Z) (evs : list Event) : Prop :=
  match evs with
  | [] => True
  | AddTodo now :: evs' => lo < now /\ clockIncreasing now evs'
  | _ :: evs' => clockIncreasing lo evs'
  end.

(** The ids of the sequence are distinct and none is later than [lo]. *)
Definition IdsBelow (lo : Z) (st : AppState) : Prop :=
  NoDup (ids (todos st)) /\ Forall (fun j => j <= lo) (ids (todos st)).

(** [r] is [l] with some elements left out, the others in their order. *)
Inductive Subseq {A : Type} : list A -> list A -> Prop :=
| Subseq_nil : Subseq [] []
| Subseq_keep : forall x r l, Subseq r l -> Subseq (x :: r) (x :: l)
| Subseq_drop : forall x r l, Subseq r l -> Subseq r (x :: l).

(** ** The rendered list: [TodoItem] and the handlers of the JSX *)

Inductive Icon : Type := PlusIcon | TrashIcon | CheckIcon | CrossIcon.

(** What [TodoItem] renders for one record: the part of the [li] class that
    depends on the record, the text of the [span], the class and the icon of
    the first button, and the calls that the two buttons make when clicked
    ([onToggle(todo.id)] and [onDelete(todo.id)], [App] passing [toggleTodo]
    and [deleteTodo]). *)
Record TodoItemView := mkTodoItemView {
  itemClass : String.string;
  itemText : jsstring;
  toggleClass : String.string;
  toggleIcon : Icon;
  onToggleClick : Event;
  deleteIcon : Icon;
  onDeleteClick : Event
}.

Definition TodoItem (todo : Todo) : TodoItemView :=
  mkTodoItemView
    (if completed todo
     then "bg-green-50 line-through text-gray-500" else "bg-white")%string
    (text todo)
    (if completed todo
     then "text-green-500 hover:bg-green-100"
     else "text-gray-400 hover:bg-gray-100")%string
    (if completed todo then CheckIcon else CrossIcon)
    (ToggleTodo (id todo))
    TrashIcon
    (DeleteTodo (id todo)).

(** [todos.map(todo => <TodoItem key={todo.id} todo={todo} ... />)]: the
    React key and the item, in the order of the sequence. *)
Definition todoItems (st : AppState) : list (Z * TodoItemView) :=
  map (fun todo => (id todo, TodoItem todo)) (todos st).

(** A click on a button of the [n]-th item of the list; there is no such
    button when the list has no [n]-th item. *)
Definition clickItem (button : TodoItemView -> Event) (n : nat)
  (st : AppState) : option AppState :=
  match nth_error (todoItems st) n with
  | Some (_, item) => Some (step st (button item))
  | None => None
  end.

Definition clickToggle : nat -> AppState -> option AppState :=
  clickItem onToggleClick.

Definition clickDelete : nat -> AppState -> option AppState :=
  clickItem onDeleteClick.

(** [a === b] on strings. *)
Definition strictEquals (a b : jsstring) : bool :=
  if list_eq_dec N.eq_dec a b then true else false.

(** [onKeyDown={(e) => e.key === 'Enter' && addTodo()}] *)
Definition onKeyDown (key : jsstring) (now : Z) (st : AppState) : AppState :=
  if strictEquals key (js "Enter") then addTodo now st else st.

(** A run of key presses in the text input, each with its clock reading. *)
Definition keyPresses (ks : list (jsstring * Z)) (st : AppState) : AppState :=
  fold_left (fun s k => onKeyDown (fst k) (snd k) s) ks st.

(** ** Sessions with their renders

    The component body runs again after an event.  (React skips the render
    when no setter changed a cell; by [render_same_ref] below such a render
    would leave the hooks as they are, so it is harmless to run it.) *)

Definition stepRendered (sh : AppState * Hooks) (e : Event)
  : AppState * Hooks :=
  let st' := step (fst sh) e in (st', render st' (snd sh)).

Definition runRendered (evs : list Event) (sh : AppState * Hooks)
  : AppState * Hooks :=
  fold_left stepRendered evs sh.

Definition mounted : AppState * Hooks :=
  (initialState, render initialState firstRender).

Definition memoValue (cell : MemoCell) : option nat :=
  match cell with Some (_, v) => Some v | None => None end.

(** The hooks hold the views of the current [todos] array. *)
Definition Coherent (sh : AppState * Hooks) : Prop :=
  let (st, h) := sh in
  expensiveCell h
  = Some (todosRef st, expensiveTodoComputation (todos st))
  /\ completedCell h = Some (todosRef st, completedTodosCount (todos st))
  /\ (todosRef st < nextRef st)%nat.

(** Number of events of the session that call [setTodos]. *)
Fixpoint todosUpdates (evs : list Event) (st : AppState) : nat :=
  match evs with
  | [] => 0%nat
  | e :: evs' =>
      ((match e with
        | AddTodo _ =>
            if JsString.truthy (JsString.trim (inputValue st)) then 1 else 0
        | ToggleTodo _ | DeleteTodo _ => 1
        | Increment | Change _ => 0
        end) + todosUpdates evs' (step st e))%nat
  end.

Definition isIncrement (e : Event) : bool :=
  match e with Increment => true | _ => false end.

(** The clock readings of the [addTodo] calls of a session, in order. *)
Definition addReadings (evs : list Event) : list Z :=
  flat_map (fun e => match e with AddTodo now => [now] | _ => [] end) evs.

(** * Properties *)

(** ** Strings *)

Section Trim.

Import JsString.

Lemma truthy_true_iff (s : jsstring) : truthy s = true <-> s <> [].
Proof. destruct s; simpl; split; congruence. Qed.

Lemma truthy_false_iff (s : jsstring) : truthy s = false <-> s = [].
Proof. destruct s; simpl; split; congruence. Qed.

Lemma trimStart_nil_iff (s : jsstring) :
  trimStart s = [] <-> forallb isWhiteSpace s = true.
Proof.
  induction s as [|c s IH]; simpl.
  - tauto.
  - destruct (isWhiteSpace c); simpl; [exact IH|].
    split; discriminate.
Qed.

(** The trim of a string is empty exactly when the string is empty or made
    of white space only. *)
Lemma trim_nil_iff (s : jsstring) :
  trim s = [] <-> forallb isWhiteSpace s = true.
Proof.
  unfold trim, trimEnd. split.
  - intros H. apply (f_equal (@rev N)) in H.
    rewrite rev_involutive in H. simpl in H.
    apply trimStart_nil_iff in H.
    rewrite forallb_forall in H.
    destruct (trimStart s) as [|c r] eqn:E.
    + now apply trimStart_nil_iff.
    + exfalso.
      assert (Hc : isWhiteSpace c = true).
      { apply H. rewrite <- in_rev. now left. }
      clear H. induction s as [|d s IH]; simpl in E; [discriminate|].
      destruct (isWhiteSpace d) eqn:Ed; [auto|].
      injection E as -> _. congruence.
  - intros H. apply trimStart_nil_iff in H. now rewrite H.
Qed.

End Trim.

(** ** Lists of records *)

Section ListFacts.

Lemma ids_toggleList (i : Z) (l : list Todo) : ids (toggleList i l) = ids l.
Proof.
  unfold ids, toggleList. rewrite map_map. apply map_ext.
  intros t. unfold toggleOne. now destruct (id t =? i).
Qed.

Lemma hasId_In (i : Z) (l : list Todo) : hasId i l = true <-> In i (ids l).
Proof.
  unfold hasId, ids. rewrite existsb_exists, in_map_iff.
  split; intros (t & H1 & H2).
  - exists t. apply Z.eqb_eq in H2. tauto.
  - exists t. split; [assumption|]. now apply Z.eqb_eq.
Qed.

Lemma toggleOne_other (i : Z) (t : Todo) : id t <> i -> toggleOne i t = t.
Proof.
  intros H. unfold toggleOne. now apply Z.eqb_neq in H as ->.
Qed.

Lemma toggleList_absent (i : Z) (l : list Todo) :
  ~ In i (ids l) -> toggleList i l = l.
Proof.
  induction l as [|t l IH]; simpl; intros H; [reflexivity|].
  rewrite toggleOne_other by tauto.
  f_equal. apply IH. tauto.
Qed.

Lemma deleteList_absent (i : Z) (l : list Todo) :
  ~ In i (ids l) -> deleteList i l = l.
Proof.
  induction l as [|t l IH]; simpl; intros H; [reflexivity|].
  destruct (Z.eqb_spec (id t) i) as [E|E]; simpl; [tauto|].
  f_equal. apply IH. tauto.
Qed.

Lemma deleteList_Subseq (i : Z) (l : list Todo) : Subseq (deleteList i l) l.
Proof.
  induction l as [|t l IH]; simpl; [constructor|].
  destruct (negb (id t =? i)); now constructor.
Qed.

(** Every subsequence without the id is a subsequence of the result. *)
Lemma deleteList_greatest (i : Z) (r l : list Todo) :
  Subseq r l -> ~ In i (ids r) -> Subseq r (deleteList i l).
Proof.
  induction 1 as [|x r l Hsub IH|x r l Hsub IH]; simpl; intros Hout.
  - constructor.
  - destruct (Z.eqb_spec (id x) i) as [E|E]; simpl; [tauto|].
    constructor. apply IH. tauto.
  - destruct (negb (id x =? i)); [constructor|]; now apply IH.
Qed.

Lemma deleteList_length (i : Z) (l : list Todo) :
  (length (deleteList i l) + count_occ Z.eq_dec (ids l) i = length l)%nat.
Proof.
  induction l as [|t l IH]; simpl; [reflexivity|].
  destruct (Z.eq_dec (id t) i) as [E|E].
  - apply Z.eqb_eq in E as ->. simpl. lia.
  - apply Z.eqb_neq in E as ->. simpl. lia.
Qed.

Lemma ids_deleteList (i : Z) (l : list Todo) :
  ids (deleteList i l) = filter (fun j => negb (j =? i)) (ids l).
Proof.
  induction l as [|t l IH]; simpl; [reflexivity|].
  destruct (negb (id t =? i)); simpl; now rewrite IH.
Qed.

Lemma NoDup_filter {A} (f : A -> bool) (l : list A) :
  NoDup l -> NoDup (filter f l).
Proof.
  induction 1 as [|x l Hx Hl IH]; simpl; [constructor|].
  destruct (f x); [|assumption].
  constructor; [|assumption].
  rewrite filter_In. tauto.
Qed.

(** With distinct ids, a delete that hits removes exactly one record. *)
Lemma count_occ_NoDup_In (i : Z) (l : list Z) :
  NoDup l -> In i l -> count_occ Z.eq_dec l i = 1%nat.
Proof.
  intros Hnd Hin.
  pose proof (proj1 (NoDup_count_occ Z.eq_dec l) Hnd i).
  pose proof (proj1 (count_occ_In Z.eq_dec l i) Hin). lia.
Qed.

End ListFacts.

(** ** The claims *)

(** C1, as stated, fails: the record that [addTodo] appends holds the input
    text as typed, not its trim.  With the input [" a"], whose trim is
    ["a"], the appended record has the text [" a"]; whatever the id, the
    result is not the old sequence followed by a record with the trimmed
    text. *)
Lemma C1_text_is_not_trimmed :
  let st := setInputValue (js " a") initialState in
  JsString.trim (inputValue st) = js "a"
  /\ JsString.trim (inputValue st) <> []
  /\ todos (addTodo 1000 st) = [mkTodo 1000 (js " a") false]
  /\ forall i, todos (addTodo 1000 st)
               <> todos st
                  ++ [mkTodo i (JsString.trim (inputValue st)) false].
Proof.
  split; [reflexivity|]. split; [discriminate|]. split; [reflexivity|].
  intros i H. vm_compute in H. discriminate.
Qed.

(** C1, amended: for every input text whose trim is non-empty, [addTodo]
    appends to the end of the sequence one new record whose text is the input
    text exactly as typed (untrimmed), with [completed = false] and with the
    reading of [Date.now()] as id; the existing records stay as they are, in
    front of it. *)
Theorem C1_addTodo_appends_raw_text (now : Z) (st : AppState) :
  JsString.trim (inputValue st) <> [] ->
  todos (addTodo now st)
  = todos st ++ [mkTodo now (inputValue st) false].
Proof.
  intros H. unfold addTodo.
  apply truthy_true_iff in H. now rewrite H.
Qed.

Lemma C1_addTodo_appends_raw_text_witness :
  todos (addTodo 1000 (setInputValue (js " buy milk ") initialState))
  = [mkTodo 1000 (js " buy milk ") false].
Proof.
  apply (C1_addTodo_appends_raw_text 1000
           (setInputValue (js " buy milk ") initialState)).
  vm_compute. discriminate.
Defined.

(** C5: for every input text whose trim is empty (the text is empty or made
    of white space only), [addTodo] is a silent no-op: it returns the state
    it was given, so the todo sequence and its length are unchanged, and
    being a total function it signals no failure. *)
Theorem C5_addTodo_blank_is_noop (now : Z) (st : AppState) :
  JsString.trim (inputValue st) = [] ->
  forallb JsString.isWhiteSpace (inputValue st) = true
  /\ addTodo now st = st
  /\ todos (addTodo now st) = todos st
  /\ totalCount (todos (addTodo now st)) = totalCount (todos st).
Proof.
  intros H.
  assert (E : addTodo now st = st).
  { unfold addTodo. now rewrite H. }
  rewrite E. apply trim_nil_iff in H. auto.
Qed.

Lemma C5_addTodo_blank_is_noop_witness :
  let st := setInputValue (js "  ")
              (run [Change (js "x"); AddTodo 5] initialState) in
  forallb JsString.isWhiteSpace (inputValue st) = true
  /\ addTodo 7 st = st
  /\ todos (addTodo 7 st) = todos st
  /\ totalCount (todos (addTodo 7 st)) = totalCount (todos st).
Proof.
  intros st. apply (C5_addTodo_blank_is_noop 7 st). reflexivity.
Defined.

(** After a render the cells remember the array they were computed from. *)
Lemma render_remembers (st : AppState) (h : Hooks) :
  exists v1 v2,
    expensiveCell (render st h) = Some (todosRef st, v1)
    /\ completedCell (render st h) = Some (todosRef st, v2).
Proof.
  unfold render, useMemo.
  destruct (expensiveCell h) as [[d1 v1]|], (completedCell h) as [[d2 v2]|];
    try destruct (Nat.eqb_spec d1 (todosRef st));
    try destruct (Nat.eqb_spec d2 (todosRef st));
    subst; simpl; eauto.
Qed.

(** A render of a state whose [todos] array is the one of the previous render
    runs neither memoized function again. *)
Lemma render_same_ref (st st' : AppState) (h : Hooks) :
  todosRef st' = todosRef st -> render st' (render st h) = render st h.
Proof.
  intros E.
  destruct (render_remembers st h) as (v1 & v2 & H1 & H2).
  destruct (render st h) as [c1 c2 n]. simpl in H1, H2. subst c1 c2.
  unfold render, useMemo. simpl. rewrite E, Nat.eqb_refl. reflexivity.
Qed.

(** C4: [increment] replaces the counter by [counter + 1] (a total function,
    so it cannot fail) and leaves the todo sequence unchanged, contents and
    array identity alike; [addTodo], [toggleTodo] and [deleteTodo] leave the
    counter unchanged.  Hence the todo-derived views are the same after an
    increment, and the render that follows it recomputes none of them and
    writes no log line. *)
Theorem C4_counter_and_todos_are_independent (st : AppState) :
  count (increment st) = count st + 1
  /\ todos (increment st) = todos st
  /\ todosRef (increment st) = todosRef st
  /\ (forall now, count (addTodo now st) = count st)
  /\ (forall i, count (toggleTodo i st) = count st)
  /\ (forall i, count (deleteTodo i st) = count st)
  /\ totalCount (todos (increment st)) = totalCount (todos st)
  /\ completedTodosCount (todos (increment st))
     = completedTodosCount (todos st)
  /\ expensiveTodoComputation (todos (increment st))
     = expensiveTodoComputation (todos st)
  /\ (forall h, render (increment st) (render st h) = render st h).
Proof.
  repeat split; try reflexivity.
  - intros now. unfold addTodo.
    now destruct (JsString.truthy (JsString.trim (inputValue st))).
  - intros h. now apply render_same_ref.
Qed.

(** C6: for every list and every id that no record of the list carries,
    [toggleTodo] and [deleteTodo] each return the sequence unchanged (they
    are total functions and raise nothing); in particular, deleting any id
    from the empty list yields the empty list. *)
Theorem C6_absent_id_is_noop (i : Z) (st : AppState) :
  ~ In i (ids (todos st)) ->
  todos (toggleTodo i st) = todos st
  /\ todos (deleteTodo i st) = todos st
  /\ (forall j, deleteList j [] = []).
Proof.
  intros H. simpl. split; [|split].
  - now apply toggleList_absent.
  - now apply deleteList_absent.
  - reflexivity.
Qed.

Lemma C6_absent_id_is_noop_witness :
  let st := run [Change (js "a"); AddTodo 10; Change (js "b"); AddTodo 20]
                initialState in
  todos (toggleTodo 9999 st) = todos st
  /\ todos (deleteTodo 9999 st) = todos st
  /\ (forall j, deleteList j [] = []).
Proof.
  intros st. apply (C6_absent_id_is_noop 9999 st).
  vm_compute. intros [H|[H|[]]]; discriminate.
Defined.

(** C7: for every list that contains a record with the given id, the ids of
    the list being distinct, [toggleTodo] returns a sequence of the same
    length and order in which that record has its [completed] flag inverted
    (same id and text) and every other record is unchanged. *)
Theorem C7_toggle_present (i : Z) (l : list Todo) (t : Todo) :
  NoDup (ids l) -> In t l -> id t = i ->
  length (toggleList i l) = length l
  /\ exists l1 l2,
       l = l1 ++ t :: l2
       /\ toggleList i l
          = l1 ++ mkTodo (id t) (text t) (negb (completed t)) :: l2.
Proof.
  intros Hnd Hin Hid. split.
  - unfold toggleList. apply length_map.
  - apply in_split in Hin. destruct Hin as (l1 & l2 & ->).
    exists l1, l2. split; [reflexivity|].
    unfold ids in Hnd. rewrite map_app in Hnd. simpl in Hnd.
    pose proof (NoDup_remove_2 _ _ _ Hnd) as Hout.
    rewrite in_app_iff in Hout. rewrite Hid in Hout.
    unfold toggleList. rewrite map_app. simpl.
    fold (toggleList i l1). fold (toggleList i l2).
    rewrite (toggleList_absent i l1), (toggleList_absent i l2)
      by (unfold ids; tauto).
    unfold toggleOne. rewrite Hid, Z.eqb_refl. reflexivity.
Qed.

Lemma C7_toggle_present_witness :
  let l := [mkTodo 10 (js "a") false; mkTodo 20 (js "b") false;
            mkTodo 30 (js "c") true] in
  let t := mkTodo 20 (js "b") false in
  length (toggleList 20 l) = length l
  /\ exists l1 l2,
       l = l1 ++ t :: l2
       /\ toggleList 20 l
          = l1 ++ mkTodo (id t) (text t) (negb (completed t)) :: l2.
Proof.
  intros l t. apply (C7_toggle_present 20 l t).
  - repeat constructor; simpl; intuition discriminate.
  - simpl. tauto.
  - reflexivity.
Defined.

Lemma toggleOne_involutive (i : Z) (t : Todo) :
  toggleOne i (toggleOne i t) = t.
Proof.
  unfold toggleOne. destruct (id t =? i) eqn:E; simpl; rewrite E.
  - rewrite negb_involutive. now destruct t.
  - reflexivity.
Qed.

(** C8: for every list and every id, [toggleTodo] applied twice in
    succession returns a sequence equal record for record to the original
    one: ids, texts and [completed] flags are all restored. *)
Theorem C8_toggle_twice (i : Z) (st : AppState) :
  toggleList i (toggleList i (todos st)) = todos st
  /\ todos (toggleTodo i (toggleTodo i st)) = todos st.
Proof.
  assert (E : forall l, toggleList i (toggleList i l) = l).
  { intros l. unfold toggleList. rewrite map_map.
    rewrite <- (map_id l) at 2. apply map_ext.
    apply toggleOne_involutive. }
  split; [apply E|]. simpl. apply E.
Qed.

(** C9: for every todo sequence, the number of records with
    [completed = true] is at most the length of the sequence. *)
Theorem C9_completed_le_total (l : list Todo) :
  (completedTodosCount l <= totalCount l)%nat.
Proof.
  unfold completedTodosCount, totalCount.
  induction l as [|t l IH]; simpl; [lia|].
  destruct (completed t); simpl; lia.
Qed.

(** C10: for every list and every id, [deleteTodo] returns the subsequence of
    the records whose id differs from the given one, in their original order:
    the result is a subsequence of the list, none of its records has the id,
    every record with another id is kept, every subsequence free of the id is
    a subsequence of the result, and exactly the records with the id are
    missing (as many as the id occurs in the list).  So when several records
    share the id, one call removes them all. *)
Theorem C10_delete_removes_every_match (i : Z) (st : AppState) :
  todos (deleteTodo i st) = deleteList i (todos st)
  /\ Subseq (deleteList i (todos st)) (todos st)
  /\ ~ In i (ids (deleteList i (todos st)))
  /\ (forall t, In t (todos st) -> id t <> i ->
                In t (deleteList i (todos st)))
  /\ (forall r, Subseq r (todos st) -> ~ In i (ids r) ->
                Subseq r (deleteList i (todos st)))
  /\ (length (deleteList i (todos st))
      + count_occ Z.eq_dec (ids (todos st)) i
      = length (todos st))%nat.
Proof.
  split; [reflexivity|]. split; [apply deleteList_Subseq|].
  split; [|split; [|split]].
  - rewrite ids_deleteList, filter_In. intros [_ H].
    now rewrite Z.eqb_refl in H.
  - intros t Hin Hid. unfold deleteList. rewrite filter_In.
    split; [assumption|]. now apply Z.eqb_neq in Hid as ->.
  - intros r. apply deleteList_greatest.
  - apply deleteList_length.
Qed.

(** Two records added in the same millisecond go away together. *)
Example delete_removes_both_twins :
  let st := run [Change (js "a"); AddTodo 1000; Change (js "b");
                 AddTodo 1000; Change (js "c"); AddTodo 1001]
                initialState in
  ids (todos st) = [1000; 1000; 1001]
  /\ todos (deleteTodo 1000 st) = [mkTodo 1001 (js "c") false].
Proof. split; reflexivity. Qed.

(** ** Sessions and the uniqueness of ids *)

Section Sessions.

Lemma NoDup_snoc {A} (x : A) (l : list A) :
  NoDup l -> ~ In x l -> NoDup (l ++ [x]).
Proof.
  induction 1 as [|y l Hy Hl IH]; simpl; intros Hx.
  - constructor; [tauto|constructor].
  - constructor.
    + rewrite in_app_iff. simpl. intuition congruence.
    + apply IH. tauto.
Qed.

Lemma IdsBelow_weaken (lo lo' : Z) (st : AppState) :
  lo <= lo' -> IdsBelow lo st -> IdsBelow lo' st.
Proof.
  intros Hle [Hnd Hall]. split; [assumption|].
  eapply Forall_impl; [|exact Hall]. simpl. intros; lia.
Qed.

Lemma IdsBelow_addTodo (lo now : Z) (st : AppState) :
  lo < now -> IdsBelow lo st -> IdsBelow now (addTodo now st).
Proof.
  intros Hlt Hinv. unfold addTodo.
  destruct (JsString.truthy (JsString.trim (inputValue st)));
    [|apply (IdsBelow_weaken lo); [lia|assumption]].
  destruct Hinv as [Hnd Hall]. unfold IdsBelow, ids in *. simpl.
  rewrite map_app. simpl. split.
  - apply NoDup_snoc; [assumption|].
    intros Hin. rewrite Forall_forall in Hall.
    specialize (Hall _ Hin). simpl in Hall. lia.
  - apply Forall_app. split.
    + eapply Forall_impl; [|exact Hall]. simpl. intros; lia.
    + constructor; [lia|constructor].
Qed.

Lemma IdsBelow_toggleTodo (lo i : Z) (st : AppState) :
  IdsBelow lo st -> IdsBelow lo (toggleTodo i st).
Proof.
  unfold IdsBelow. simpl. now rewrite ids_toggleList.
Qed.

Lemma IdsBelow_deleteTodo (lo i : Z) (st : AppState) :
  IdsBelow lo st -> IdsBelow lo (deleteTodo i st).
Proof.
  unfold IdsBelow. simpl. rewrite ids_deleteList. intros [Hnd Hall].
  split; [now apply NoDup_filter|].
  rewrite Forall_forall in *. intros j Hj.
  apply filter_In in Hj. now apply Hall.
Qed.

(** What one event does to the length of the sequence. *)
Lemma length_addTodo (now : Z) (st : AppState) :
  length (todos (addTodo now st))
  = (length (todos st)
     + if JsString.truthy (JsString.trim (inputValue st)) then 1 else 0)%nat.
Proof.
  unfold addTodo.
  destruct (JsString.truthy (JsString.trim (inputValue st))); simpl.
  - now rewrite length_app.
  - lia.
Qed.

Lemma length_deleteTodo_distinct (i : Z) (st : AppState) :
  NoDup (ids (todos st)) ->
  (length (todos (deleteTodo i st))
   + (if hasId i (todos st) then 1 else 0)
   = length (todos st))%nat.
Proof.
  intros Hnd. simpl.
  pose proof (deleteList_length i (todos st)) as Hlen.
  destruct (hasId i (todos st)) eqn:E.
  - apply hasId_In in E.
    now rewrite (count_occ_NoDup_In i _ Hnd E) in Hlen.
  - assert (Hout : ~ In i (ids (todos st))).
    { rewrite <- hasId_In. congruence. }
    apply (count_occ_not_In Z.eq_dec) in Hout. lia.
Qed.

(** While the clock readings taken by [addTodo] increase strictly, the ids
    stay distinct and the length of the sequence is the number of accepted
    adds minus the number of deletes that found their id. *)
Lemma session_with_increasing_clock (evs : list Event) :
  forall (lo : Z) (st : AppState),
    clockIncreasing lo evs -> IdsBelow lo st ->
    NoDup (ids (todos (run evs st)))
    /\ (totalCount (todos (run evs st)) + successfulDeletes evs st
        = totalCount (todos st) + acceptedAdds evs st)%nat.
Proof.
  unfold totalCount.
  induction evs as [|e evs IH]; intros lo st Hclock Hinv.
  - simpl. split; [apply Hinv|lia].
  - destruct e as [|s|now|i|i]; simpl in Hclock |- *.
    + destruct (IH lo (increment st) Hclock Hinv) as [H1 H2].
      split; [exact H1|]. simpl in H2. lia.
    + destruct (IH lo (setInputValue s st) Hclock Hinv) as [H1 H2].
      split; [exact H1|]. simpl in H2. lia.
    + destruct Hclock as [Hlt Hclock].
      destruct (IH now (addTodo now st) Hclock
                   (IdsBelow_addTodo lo now st Hlt Hinv)) as [H1 H2].
      split; [exact H1|]. rewrite length_addTodo in H2. lia.
    + destruct (IH lo (toggleTodo i st) Hclock
                   (IdsBelow_toggleTodo lo i st Hinv)) as [H1 H2].
      split; [exact H1|]. simpl in H2.
      unfold toggleList in H2. rewrite length_map in H2. lia.
    + destruct (IH lo (deleteTodo i st) Hclock
                   (IdsBelow_deleteTodo lo i st Hinv)) as [H1 H2].
      split; [exact H1|].
      pose proof (length_deleteTodo_distinct i st (proj1 Hinv)). lia.
Qed.

Corollary session_from_initialState (evs : list Event) (lo : Z) :
  clockIncreasing lo evs ->
  NoDup (ids (todos (run evs initialState)))
  /\ (totalCount (todos (run evs initialState))
      + successfulDeletes evs initialState
      = acceptedAdds evs initialState)%nat.
Proof.
  intros Hclock.
  apply (session_with_increasing_clock evs lo initialState Hclock).
  split; constructor.
Qed.

(** The scenario of the specification, with [X = 1000]. *)
Example scenario :
  let s1 := step initialState Increment in
  let s2 := step (step s1 (Change (js "buy milk"))) (AddTodo 1000) in
  let s3 := step s2 (ToggleTodo 1000) in
  let s4 := step s3 (DeleteTodo 1000) in
  count s1 = 1
  /\ todos s2 = [mkTodo 1000 (js "buy milk") false]
  /\ totalCount (todos s2) = 1%nat
  /\ completedTodosCount (todos s2) = 0%nat
  /\ expensiveTodoComputation (todos s2) = 100%nat
  /\ todos s3 = [mkTodo 1000 (js "buy milk") true]
  /\ completedTodosCount (todos s3) = 1%nat
  /\ todos s4 = []
  /\ totalCount (todos s4) = 0%nat.
Proof. repeat split. Qed.

End Sessions.

(** C2: started from the initial state, two accepted [addTodo] calls that
    read the same [Date.now()] value (same millisecond, or a clock set back)
    leave two records with one id in the sequence: the ids are not pairwise
    distinct. *)
Theorem C2_ids_collide_within_a_millisecond :
  let st := run [Change (js "a"); AddTodo 1000; Change (js "b"); AddTodo 1000]
                initialState in
  todos st = [mkTodo 1000 (js "a") false; mkTodo 1000 (js "b") false]
  /\ ~ NoDup (ids (todos st)).
Proof.
  split; [reflexivity|].
  intros H. inversion H as [|j l Hin _]; subst.
  apply Hin. now left.
Qed.

(** C3: in the same session followed by one [deleteTodo] of the shared id,
    two adds were accepted and one delete found its id, yet the sequence is
    empty: [totalCount] is 0, not 2 - 1. *)
Theorem C3_count_off_after_colliding_ids :
  let evs := [Change (js "a"); AddTodo 1000; Change (js "b"); AddTodo 1000;
              DeleteTodo 1000] in
  acceptedAdds evs initialState = 2%nat
  /\ successfulDeletes evs initialState = 1%nat
  /\ totalCount (todos (run evs initialState)) = 0%nat
  /\ (totalCount (todos (run evs initialState))
      <> acceptedAdds evs initialState
         - successfulDeletes evs initialState)%nat.
Proof.
  repeat split. vm_compute. discriminate.
Qed.

(** * Further properties of the callbacks *)

Section Callbacks.

Lemma toggleList_at (l1 l2 : list Todo) (t : Todo) :
  NoDup (ids (l1 ++ t :: l2)) ->
  toggleList (id t) (l1 ++ t :: l2)
  = l1 ++ mkTodo (id t) (text t) (negb (completed t)) :: l2.
Proof.
  intros Hnd. unfold ids in Hnd. rewrite map_app in Hnd. simpl in Hnd.
  pose proof (NoDup_remove_2 _ _ _ Hnd) as Hout.
  rewrite in_app_iff in Hout.
  unfold toggleList. rewrite map_app. simpl.
  fold (toggleList (id t) l1). fold (toggleList (id t) l2).
  rewrite (toggleList_absent (id t) l1), (toggleList_absent (id t) l2)
    by (unfold ids; tauto).
  unfold toggleOne. now rewrite Z.eqb_refl.
Qed.

Lemma completedTodosCount_app (l1 l2 : list Todo) :
  completedTodosCount (l1 ++ l2)
  = (completedTodosCount l1 + completedTodosCount l2)%nat.
Proof.
  unfold completedTodosCount. now rewrite filter_app, length_app.
Qed.

Lemma addTodo_accepted (now : Z) (st : AppState) :
  JsString.trim (inputValue st) <> [] ->
  addTodo now st
  = setInputValue []
      (setTodos (fun prev => prev ++ [mkTodo now (inputValue st) false]) st).
Proof.
  intros H. unfold addTodo. apply truthy_true_iff in H. now rewrite H.
Qed.

Lemma addTodo_repeated (n1 n2 : Z) (st : AppState) :
  addTodo n2 (addTodo n1 st) = addTodo n1 st.
Proof.
  destruct (JsString.truthy (JsString.trim (inputValue st))) eqn:E.
  - rewrite (addTodo_accepted n1 st) by (now apply truthy_true_iff).
    reflexivity.
  - assert (Hrej : forall n, addTodo n st = st).
    { intros n. unfold addTodo. now rewrite E. }
    now rewrite !Hrej.
Qed.

Lemma keyPresses_cons (key : jsstring) (n : Z) (ks : list (jsstring * Z))
  (st : AppState) :
  keyPresses ((key, n) :: ks) st = keyPresses ks (onKeyDown key n st).
Proof. reflexivity. Qed.

Lemma keyPresses_after_addTodo (ks : list (jsstring * Z)) :
  forall (now : Z) (st : AppState),
    keyPresses ks (addTodo now st) = addTodo now st.
Proof.
  induction ks as [|[key n] ks IH]; intros now st; [reflexivity|].
  rewrite keyPresses_cons. unfold onKeyDown.
  destruct (strictEquals key (js "Enter")).
  - rewrite addTodo_repeated. apply IH.
  - apply IH.
Qed.

End Callbacks.

(** X1: a second [addTodo] right after a first one changes nothing, whatever
    the two clock readings: an accepted add empties the input, and a rejected
    one leaves the same blank input behind.  A double click on "Add Todo"
    adds one record. *)
Theorem X1_addTodo_twice_adds_once (n1 n2 : Z) (st : AppState) :
  addTodo n2 (addTodo n1 st) = addTodo n1 st
  /\ (length (todos (addTodo n2 (addTodo n1 st))) <= S (length (todos st)))%nat.
Proof.
  rewrite addTodo_repeated. split; [reflexivity|].
  unfold addTodo.
  destruct (JsString.truthy (JsString.trim (inputValue st))); simpl.
  - rewrite length_app. simpl. lia.
  - lia.
Qed.

(** X2: a run of key presses in the text input, with no typing in between,
    acts as one [addTodo] at the reading of the first press whose key is
    ["Enter"], and does nothing when no press is ["Enter"]: other keys are
    ignored and a held Enter key adds at most one record. *)
Theorem X2_keyPresses_first_enter (ks : list (jsstring * Z)) (st : AppState) :
  keyPresses ks st
  = match find (fun k => strictEquals (fst k) (js "Enter")) ks with
    | Some k => addTodo (snd k) st
    | None => st
    end.
Proof.
  revert st. induction ks as [|[key n] ks IH]; intros st; [reflexivity|].
  rewrite keyPresses_cons. unfold onKeyDown. cbn [find fst snd].
  destruct (strictEquals key (js "Enter")).
  - apply keyPresses_after_addTodo.
  - apply IH.
Qed.

(** X3: [addTodo] never changes the number of completed records (the record
    it appends is pending), and it always leaves a blank text input behind:
    cleared when the add was accepted, blank as before when it was not. *)
Theorem X3_addTodo_keeps_completed_count (now : Z) (st : AppState) :
  completedTodosCount (todos (addTodo now st))
  = completedTodosCount (todos st)
  /\ JsString.trim (inputValue (addTodo now st)) = [].
Proof.
  unfold addTodo.
  destruct (JsString.truthy (JsString.trim (inputValue st))) eqn:E; simpl.
  - split; [|reflexivity].
    rewrite completedTodosCount_app. unfold completedTodosCount. simpl. lia.
  - split; [reflexivity|]. now apply truthy_false_iff.
Qed.

(** X4: [toggleTodo] changes nothing but [completed] flags: the ids, the
    texts and the length of the sequence are the same, so "Total Todos" and
    the computation result are the same too. *)
Theorem X4_toggleTodo_keeps_ids_and_texts (i : Z) (st : AppState) :
  ids (todos (toggleTodo i st)) = ids (todos st)
  /\ map text (todos (toggleTodo i st)) = map text (todos st)
  /\ totalCount (todos (toggleTodo i st)) = totalCount (todos st)
  /\ expensiveTodoComputation (todos (toggleTodo i st))
     = expensiveTodoComputation (todos st).
Proof.
  simpl. split; [apply ids_toggleList|].
  assert (Hlen : length (toggleList i (todos st)) = length (todos st))
    by apply length_map.
  unfold totalCount, expensiveTodoComputation. rewrite Hlen.
  repeat split.
  unfold toggleList. rewrite map_map. apply map_ext.
  intros t. unfold toggleOne. now destruct (id t =? i).
Qed.

(** X5: when the ids of the sequence are distinct, toggling the id of a
    record of the sequence moves the number of completed records by exactly
    one: up when the record was pending, down when it was completed. *)
Theorem X5_toggle_moves_completed_count_by_one (l : list Todo) (t : Todo) :
  NoDup (ids l) -> In t l ->
  (completedTodosCount (toggleList (id t) l)
   + (if completed t then 1 else 0)
   = completedTodosCount l + (if completed t then 0 else 1))%nat.
Proof.
  intros Hnd Hin. apply in_split in Hin. destruct Hin as (l1 & l2 & ->).
  rewrite (toggleList_at l1 l2 t Hnd).
  rewrite !completedTodosCount_app.
  change (?x :: l2) with ([x] ++ l2).
  rewrite !completedTodosCount_app.
  unfold completedTodosCount. simpl.
  destruct (completed t); simpl; lia.
Qed.

Lemma X5_toggle_moves_completed_count_by_one_witness :
  let l := [mkTodo 10 (js "a") true; mkTodo 20 (js "b") false] in
  let t := mkTodo 20 (js "b") false in
  (completedTodosCount (toggleList (id t) l)
   + (if completed t then 1 else 0)
   = completedTodosCount l + (if completed t then 0 else 1))%nat.
Proof.
  intros l t. apply (X5_toggle_moves_completed_count_by_one l t).
  - repeat constructor; simpl; intuition discriminate.
  - simpl. tauto.
Defined.

Section ListAlgebra.

Lemma filter_comm {A} (f g : A -> bool) (l : list A) :
  filter f (filter g l) = filter g (filter f l).
Proof.
  induction l as [|x l IH]; simpl; [reflexivity|].
  destruct (f x) eqn:Ef, (g x) eqn:Eg; simpl;
    rewrite ?Ef, ?Eg, IH; reflexivity.
Qed.

Lemma filter_idem {A} (f : A -> bool) (l : list A) :
  filter f (filter f l) = filter f l.
Proof.
  induction l as [|x l IH]; simpl; [reflexivity|].
  destruct (f x) eqn:Ef; simpl; rewrite ?Ef, IH; reflexivity.
Qed.

Lemma id_toggleOne (i : Z) (t : Todo) : id (toggleOne i t) = id t.
Proof. unfold toggleOne. now destruct (id t =? i). Qed.

Lemma toggleOne_comm (i j : Z) (t : Todo) :
  toggleOne i (toggleOne j t) = toggleOne j (toggleOne i t).
Proof.
  unfold toggleOne.
  destruct (id t =? i) eqn:Ei, (id t =? j) eqn:Ej; simpl;
    rewrite ?Ei, ?Ej; reflexivity.
Qed.

Lemma delete_toggle_comm (i j : Z) (l : list Todo) :
  deleteList j (toggleList i l) = toggleList i (deleteList j l).
Proof.
  induction l as [|t l IH]; simpl; [reflexivity|].
  rewrite id_toggleOne.
  destruct (negb (id t =? j)); simpl; now rewrite IH.
Qed.

Lemma deleteList_snoc_fresh (i : Z) (l : list Todo) (s : jsstring)
  (c : bool) :
  ~ In i (ids l) -> deleteList i (l ++ [mkTodo i s c]) = l.
Proof.
  intros H. unfold deleteList. rewrite filter_app. simpl.
  rewrite Z.eqb_refl. simpl. rewrite app_nil_r.
  now apply deleteList_absent.
Qed.

End ListAlgebra.

(** X6: deleting an id a second time changes nothing more, and two deletes
    give the same sequence in either order. *)
Theorem X6_deletes_idempotent_and_commute (i j : Z) (st : AppState) :
  todos (deleteTodo i (deleteTodo i st)) = todos (deleteTodo i st)
  /\ todos (deleteTodo i (deleteTodo j st))
     = todos (deleteTodo j (deleteTodo i st)).
Proof.
  simpl. unfold deleteList. split; [apply filter_idem|apply filter_comm].
Qed.

(** X7: two toggles give the same sequence in either order, and so do a
    toggle and a delete, whatever the two ids (equal or not, present or
    not). *)
Theorem X7_toggle_commutes (i j : Z) (st : AppState) :
  todos (toggleTodo i (toggleTodo j st))
  = todos (toggleTodo j (toggleTodo i st))
  /\ todos (deleteTodo j (toggleTodo i st))
     = todos (toggleTodo i (deleteTodo j st)).
Proof.
  simpl. split; [|apply delete_toggle_comm].
  unfold toggleList. rewrite !map_map. apply map_ext.
  intros t. apply toggleOne_comm.
Qed.

(** X8: an accepted [addTodo] whose clock reading is the id of no record of
    the sequence is undone by [deleteTodo] of that reading: the sequence is
    the one before the add. *)
Theorem X8_add_then_delete (now : Z) (st : AppState) :
  JsString.trim (inputValue st) <> [] ->
  ~ In now (ids (todos st)) ->
  todos (deleteTodo now (addTodo now st)) = todos st.
Proof.
  intros Hacc Hfresh. rewrite (addTodo_accepted now st Hacc). simpl.
  now apply deleteList_snoc_fresh.
Qed.

Lemma X8_add_then_delete_witness :
  let st := run [Change (js "a"); AddTodo 10; Change (js "b")]
                initialState in
  todos (deleteTodo 20 (addTodo 20 st)) = todos st.
Proof.
  intros st. apply (X8_add_then_delete 20 st).
  - vm_compute. discriminate.
  - vm_compute. intros [H|[]]. discriminate.
Defined.

(** * Further properties of sessions *)

Section SessionFacts.

Lemma run_cons (e : Event) (evs : list Event) (st : AppState) :
  run (e :: evs) st = run evs (step st e).
Proof. reflexivity. Qed.

Lemma Subseq_refl {A} (l : list A) : Subseq l l.
Proof. induction l; now constructor. Qed.

Lemma Subseq_trans {A} (a b c : list A) :
  Subseq a b -> Subseq b c -> Subseq a c.
Proof.
  intros Hab Hbc. revert a Hab.
  induction Hbc as [|x b c Hbc IH|x b c Hbc IH]; intros a Hab.
  - exact Hab.
  - inversion Hab; subst.
    + constructor. now apply IH.
    + apply Subseq_drop. now apply IH.
  - apply Subseq_drop. now apply IH.
Qed.

Lemma Subseq_app {A} (a b c d : list A) :
  Subseq a b -> Subseq c d -> Subseq (a ++ c) (b ++ d).
Proof.
  induction 1; simpl; intros Hcd; [assumption| |]; constructor; auto.
Qed.

Lemma Subseq_filter {A} (f : A -> bool) (l : list A) :
  Subseq (filter f l) l.
Proof.
  induction l as [|x l IH]; simpl; [constructor|].
  destruct (f x); now constructor.
Qed.

Lemma ids_step_Subseq (e : Event) (evs : list Event) (st : AppState) :
  Subseq (ids (todos (step st e)) ++ addReadings evs)
         (ids (todos st) ++ addReadings (e :: evs)).
Proof.
  destruct e as [|s|now|i|i]; simpl; try apply Subseq_refl.
  - unfold addTodo.
    destruct (JsString.truthy (JsString.trim (inputValue st))); simpl.
    + unfold ids. rewrite map_app, <- app_assoc. apply Subseq_refl.
    + apply Subseq_app; [apply Subseq_refl|].
      apply Subseq_drop, Subseq_refl.
  - rewrite ids_toggleList. apply Subseq_refl.
  - rewrite ids_deleteList.
    apply Subseq_app; [apply Subseq_filter|apply Subseq_refl].
Qed.

Lemma ids_run_Subseq (evs : list Event) :
  forall st, Subseq (ids (todos (run evs st)))
                    (ids (todos st) ++ addReadings evs).
Proof.
  induction evs as [|e evs IH]; intros st.
  - simpl. rewrite app_nil_r. apply Subseq_refl.
  - rewrite run_cons.
    eapply Subseq_trans; [apply IH|apply ids_step_Subseq].
Qed.

(** The text of a record has a non-empty trim. *)
Lemma texts_kept_by_step (e : Event) (st : AppState) :
  Forall (fun t => JsString.trim (text t) <> []) (todos st) ->
  Forall (fun t => JsString.trim (text t) <> []) (todos (step st e)).
Proof.
  intros H. destruct e as [|s|now|i|i]; simpl; try assumption.
  - unfold addTodo.
    destruct (JsString.truthy (JsString.trim (inputValue st))) eqn:E;
      [|assumption].
    simpl. apply Forall_app. split; [assumption|].
    constructor; [|constructor]. simpl. now apply truthy_true_iff.
  - unfold toggleList. rewrite Forall_map.
    eapply Forall_impl; [|exact H].
    intros t Ht. unfold toggleOne. now destruct (id t =? i).
  - rewrite Forall_forall in *. intros t Ht.
    apply filter_In in Ht. now apply H.
Qed.

Lemma texts_kept_by_run (evs : list Event) :
  forall st,
    Forall (fun t => JsString.trim (text t) <> []) (todos st) ->
    Forall (fun t => JsString.trim (text t) <> []) (todos (run evs st)).
Proof.
  induction evs as [|e evs IH]; intros st H; [assumption|].
  rewrite run_cons. apply IH. now apply texts_kept_by_step.
Qed.

Lemma count_run (evs : list Event) :
  forall st,
    count (run evs st)
    = count st + Z.of_nat (length (filter isIncrement evs)).
Proof.
  induction evs as [|e evs IH]; intros st.
  - simpl. lia.
  - rewrite run_cons, IH.
    destruct e as [|s|now|i|i]; simpl; try lia.
    unfold addTodo.
    destruct (JsString.truthy (JsString.trim (inputValue st))); simpl; lia.
Qed.

Lemma length_deleteTodo_le (i : Z) (st : AppState) :
  (length (todos (deleteTodo i st))
   + (if hasId i (todos st) then 1 else 0)
   <= length (todos st))%nat.
Proof.
  simpl. pose proof (deleteList_length i (todos st)) as Hlen.
  destruct (hasId i (todos st)) eqn:E; [|lia].
  apply hasId_In in E.
  pose proof (proj1 (count_occ_In Z.eq_dec _ _) E). lia.
Qed.

Lemma length_run_le (evs : list Event) :
  forall st,
    (length (todos (run evs st)) + successfulDeletes evs st
     <= length (todos st) + acceptedAdds evs st)%nat.
Proof.
  induction evs as [|e evs IH]; intros st; [simpl; lia|].
  rewrite run_cons. specialize (IH (step st e)).
  destruct e as [|s|now|i|i]; simpl in *; try lia.
  - rewrite length_addTodo in IH. lia.
  - unfold toggleList in IH. rewrite length_map in IH. lia.
  - pose proof (length_deleteTodo_le i st). simpl in *. lia.
Qed.

End SessionFacts.

(** X9: in every session started from the initial state, every record of
    the sequence has a text whose trim is not empty, that is, a text with at
    least one code unit that is not white space. *)
Theorem X9_stored_texts_are_not_blank (evs : list Event) :
  Forall (fun t => JsString.trim (text t) <> []
                   /\ existsb (fun c => negb (JsString.isWhiteSpace c))
                              (text t) = true)
         (todos (run evs initialState)).
Proof.
  eapply Forall_impl;
    [|apply (texts_kept_by_run evs initialState); constructor].
  intros t Ht. split; [assumption|].
  destruct (existsb _ (text t)) eqn:E; [reflexivity|].
  exfalso. apply Ht. apply trim_nil_iff.
  apply forallb_forall. intros c Hc.
  destruct (JsString.isWhiteSpace c) eqn:Ec; [reflexivity|].
  assert (Hex : existsb (fun c => negb (JsString.isWhiteSpace c)) (text t)
                = true).
  { apply existsb_exists. exists c. now rewrite Ec. }
  congruence.
Qed.

(** X10: after a session started from the initial state the counter is the
    number of clicks on "Increment" in the session; typing, adding, toggling
    and deleting do not move it. *)
Theorem X10_counter_counts_increments (evs : list Event) :
  count (run evs initialState)
  = Z.of_nat (length (filter isIncrement evs))
  /\ 0 <= count (run evs initialState).
Proof.
  rewrite count_run. simpl. lia.
Qed.

(** X11: in every session started from the initial state, the ids of the
    sequence, read from first to last, are clock readings of [addTodo] calls
    of the session in the order of the calls: records stay in insertion
    order and no id comes from anywhere but [Date.now()]. *)
Theorem X11_ids_follow_the_add_readings (evs : list Event) :
  Subseq (ids (todos (run evs initialState))) (addReadings evs).
Proof.
  apply (ids_run_Subseq evs initialState).
Qed.

(** X12: in every session started from the initial state, colliding ids or
    not, "Total Todos" is at most the number of accepted adds minus the
    number of deletes that found their id. *)
Theorem X12_totalCount_upper_bound (evs : list Event) :
  (totalCount (todos (run evs initialState))
   + successfulDeletes evs initialState
   <= acceptedAdds evs initialState)%nat.
Proof.
  apply (length_run_le evs initialState).
Qed.

(** * Memoization and the rendered list *)

Section Rendering.

Lemma render_recomputes (st st' : AppState) (h : Hooks) :
  Coherent (st, h) -> todosRef st' <> todosRef st ->
  render st' h
  = mkHooks (Some (todosRef st', expensiveTodoComputation (todos st')))
            (Some (todosRef st', completedTodosCount (todos st')))
            (S (consoleLines h)).
Proof.
  intros (H1 & H2 & _) Hne. unfold render, useMemo. rewrite H1, H2.
  destruct (Nat.eqb_spec (todosRef st) (todosRef st')) as [E|E];
    [congruence|reflexivity].
Qed.

Lemma render_keeps (st st' : AppState) (h : Hooks) :
  Coherent (st, h) -> todosRef st' = todosRef st -> render st' h = h.
Proof.
  intros (H1 & H2 & _) E. unfold render, useMemo. rewrite H1, H2, E.
  rewrite Nat.eqb_refl. destruct h; simpl in *. congruence.
Qed.

Lemma Coherent_mounted : Coherent mounted.
Proof. repeat split. simpl. lia. Qed.

(** What one event followed by its render does to coherent hooks. *)
Lemma stepRendered_spec (st : AppState) (h : Hooks) (e : Event) :
  Coherent (st, h) ->
  Coherent (stepRendered (st, h) e)
  /\ fst (stepRendered (st, h) e) = step st e
  /\ consoleLines (snd (stepRendered (st, h) e))
     = (consoleLines h + todosUpdates [e] st)%nat.
Proof.
  intros Hc. pose proof Hc as (H1 & H2 & Hlt).
  assert (Hset : forall st', todosRef st' = nextRef st ->
             nextRef st' = S (nextRef st) ->
             Coherent (st', render st' h)
             /\ consoleLines (render st' h) = S (consoleLines h)).
  { intros st' E1 E2.
    rewrite (render_recomputes st st' h Hc) by lia.
    simpl. repeat split. lia. }
  assert (Hsame : forall st', todosRef st' = todosRef st ->
             todos st' = todos st -> nextRef st' = nextRef st ->
             Coherent (st', render st' h)
             /\ consoleLines (render st' h) = consoleLines h).
  { intros st' E1 E2 E3. rewrite (render_keeps st st' h Hc E1).
    split; [|reflexivity]. unfold Coherent. now rewrite E1, E2, E3. }
  unfold stepRendered. cbn [fst snd].
  destruct e as [|s|now|i|i]; cbn [step todosUpdates].
  - destruct (Hsame (increment st)) as [Ha Hb]; try reflexivity.
    repeat split; try apply Ha. lia.
  - destruct (Hsame (setInputValue s st)) as [Ha Hb]; try reflexivity.
    repeat split; try apply Ha. lia.
  - unfold addTodo.
    destruct (JsString.truthy (JsString.trim (inputValue st))).
    + match goal with
      | |- Coherent (?s, _) /\ _ => destruct (Hset s) as [Ha Hb]
      end; try reflexivity.
      repeat split; try apply Ha. lia.
    + destruct (Hsame st) as [Ha Hb]; try reflexivity.
      repeat split; try apply Ha. lia.
  - destruct (Hset (toggleTodo i st)) as [Ha Hb]; try reflexivity.
    repeat split; try apply Ha. lia.
  - destruct (Hset (deleteTodo i st)) as [Ha Hb]; try reflexivity.
    repeat split; try apply Ha. lia.
Qed.

Lemma runRendered_spec (evs : list Event) :
  forall st h,
    Coherent (st, h) ->
    Coherent (runRendered evs (st, h))
    /\ fst (runRendered evs (st, h)) = run evs st
    /\ consoleLines (snd (runRendered evs (st, h)))
       = (consoleLines h + todosUpdates evs st)%nat.
Proof.
  induction evs as [|e evs IH]; intros st h Hc.
  - simpl. repeat split; try apply Hc. lia.
  - destruct (stepRendered_spec st h e Hc) as (Ha & Hb & Hd).
    change (runRendered (e :: evs) (st, h))
      with (runRendered evs (stepRendered (st, h) e)).
    destruct (stepRendered (st, h) e) as [st1 h1] eqn:E1.
    simpl in Hb, Hd. subst st1.
    destruct (IH (step st e) h1 Ha) as (Ia & Ib & Id).
    split; [exact Ia|]. split; [exact Ib|].
    rewrite Id, Hd. simpl. lia.
Qed.

Lemma checked_items (l : list Todo) :
  length (filter (fun v => match toggleIcon v with
                           | CheckIcon => true
                           | _ => false
                           end) (map TodoItem l))
  = completedTodosCount l.
Proof.
  unfold completedTodosCount.
  induction l as [|t l IH]; simpl; [reflexivity|].
  destruct (completed t); simpl; now rewrite IH.
Qed.

End Rendering.

Section Clicks.

Lemma clickItem_at (button : TodoItemView -> Event) (n : nat)
  (st : AppState) (t : Todo) :
  nth_error (todos st) n = Some t ->
  clickItem button n st = Some (step st (button (TodoItem t))).
Proof.
  intros H. unfold clickItem, todoItems.
  now rewrite nth_error_map, H.
Qed.

Lemma deleteList_at (l1 l2 : list Todo) (t : Todo) :
  NoDup (ids (l1 ++ t :: l2)) ->
  deleteList (id t) (l1 ++ t :: l2) = l1 ++ l2.
Proof.
  intros Hnd. unfold ids in Hnd. rewrite map_app in Hnd. simpl in Hnd.
  pose proof (NoDup_remove_2 _ _ _ Hnd) as Hout.
  rewrite in_app_iff in Hout.
  unfold deleteList. rewrite filter_app. simpl.
  rewrite Z.eqb_refl. simpl.
  fold (deleteList (id t) l1). fold (deleteList (id t) l2).
  rewrite (deleteList_absent (id t) l1), (deleteList_absent (id t) l2)
    by (unfold ids; tauto).
  reflexivity.
Qed.

Lemma nth_error_pieces {A} (l : list A) (n : nat) (x : A) :
  nth_error l n = Some x -> l = firstn n l ++ x :: skipn (S n) l.
Proof.
  revert n. induction l as [|y l IH]; intros [|n] H; simpl in *;
    try discriminate.
  - now injection H as ->.
  - f_equal. now apply IH.
Qed.

End Clicks.

(** X13: after every session started from the first render, each event
    followed by its render, the two memoized values on screen are the values
    of the current sequence: [todos.length * 100] and the number of completed
    records.  The memoization never shows a stale value. *)
Theorem X13_memoized_views_are_current (evs : list Event) :
  let sh := runRendered evs mounted in
  fst sh = run evs initialState
  /\ memoValue (expensiveCell (snd sh))
     = Some (expensiveTodoComputation (todos (fst sh)))
  /\ memoValue (completedCell (snd sh))
     = Some (completedTodosCount (todos (fst sh))).
Proof.
  intros sh.
  destruct (runRendered_spec evs initialState
              (render initialState firstRender) Coherent_mounted)
    as (Hc & Hrun & _).
  fold mounted in Hc, Hrun. fold sh in Hc, Hrun.
  split; [exact Hrun|].
  destruct sh as [st h]. destruct Hc as (H1 & H2 & _). simpl.
  now rewrite H1, H2.
Qed.

(** X14: after every session started from the first render, the number of
    log lines ['Performing expensive todo computation'] is one (the first
    render) plus the number of [setTodos] calls of the session: one for each
    accepted add, each toggle and each delete, also when the toggle or delete
    met no record; none for an increment, for typing or for a rejected
    add. *)
Theorem X14_one_computation_per_todos_update (evs : list Event) :
  consoleLines (snd (runRendered evs mounted))
  = S (todosUpdates evs initialState).
Proof.
  destruct (runRendered_spec evs initialState
              (render initialState firstRender) Coherent_mounted)
    as (_ & _ & Hlines).
  fold mounted in Hlines. rewrite Hlines. reflexivity.
Qed.

(** X15: after every session started from the first render, the number shown
    as "Completed" is the number of items of the list drawn with the check
    icon, the list has one item per record with the id as key, and each item
    shows the stored text. *)
Theorem X15_completed_matches_check_icons (evs : list Event) :
  let sh := runRendered evs mounted in
  memoValue (completedCell (snd sh))
  = Some (length (filter (fun v => match toggleIcon v with
                                   | CheckIcon => true
                                   | _ => false
                                   end)
                         (map snd (todoItems (fst sh)))))
  /\ map fst (todoItems (fst sh)) = ids (todos (fst sh))
  /\ map (fun kv => itemText (snd kv)) (todoItems (fst sh))
     = map text (todos (fst sh)).
Proof.
  intros sh.
  destruct (runRendered_spec evs initialState
              (render initialState firstRender) Coherent_mounted)
    as (Hc & _ & _).
  fold mounted in Hc. fold sh in Hc.
  destruct sh as [st h]. destruct Hc as (_ & H2 & _). cbn [fst snd].
  unfold todoItems. rewrite !map_map. cbn [fst snd].
  split; [|split; reflexivity].
  rewrite H2. simpl. f_equal. symmetry. apply checked_items.
Qed.

(** X16: a click on the toggle button of the [n]-th item of the list inverts
    the [completed] flag of the [n]-th record, whether or not other records
    share its id; the sequence keeps its length and every record with another
    id is unchanged at its place. *)
Theorem X16_clickToggle_flips_that_item (n : nat) (st : AppState)
  (t : Todo) :
  nth_error (todos st) n = Some t ->
  exists st',
    clickToggle n st = Some st'
    /\ nth_error (todos st') n
       = Some (mkTodo (id t) (text t) (negb (completed t)))
    /\ length (todos st') = length (todos st)
    /\ forall m u, nth_error (todos st) m = Some u -> id u <> id t ->
                   nth_error (todos st') m = Some u.
Proof.
  intros H. exists (toggleTodo (id t) st).
  split; [apply (clickItem_at onToggleClick n st t H)|].
  simpl. unfold toggleList. split; [|split].
  - rewrite nth_error_map, H. simpl. unfold toggleOne.
    now rewrite Z.eqb_refl.
  - apply length_map.
  - intros m u Hm Hid. rewrite nth_error_map, Hm. simpl.
    now rewrite toggleOne_other.
Qed.

Lemma X16_clickToggle_flips_that_item_witness :
  let st := run [Change (js "a"); AddTodo 7; Change (js "b"); AddTodo 7]
                initialState in
  exists st',
    clickToggle 1 st = Some st'
    /\ nth_error (todos st') 1
       = Some (mkTodo 7 (js "b") (negb false))
    /\ length (todos st') = length (todos st)
    /\ forall m u, nth_error (todos st) m = Some u -> id u <> 7 ->
                   nth_error (todos st') m = Some u.
Proof.
  intros st.
  apply (X16_clickToggle_flips_that_item 1 st (mkTodo 7 (js "b") false)).
  reflexivity.
Defined.

(** X17: when the ids of the sequence are distinct, a click on the delete
    button of the [n]-th item removes the [n]-th record and nothing else:
    the records before it and the records after it remain, in order. *)
Theorem X17_clickDelete_removes_that_item (n : nat) (st : AppState)
  (t : Todo) :
  NoDup (ids (todos st)) ->
  nth_error (todos st) n = Some t ->
  exists st',
    clickDelete n st = Some st'
    /\ todos st' = firstn n (todos st) ++ skipn (S n) (todos st)
    /\ S (length (todos st')) = length (todos st).
Proof.
  intros Hnd H. exists (deleteTodo (id t) st).
  split; [apply (clickItem_at onDeleteClick n st t H)|].
  simpl. pose proof (nth_error_pieces _ _ _ H) as Hsplit.
  assert (E : deleteList (id t) (todos st)
              = firstn n (todos st) ++ skipn (S n) (todos st)).
  { rewrite Hsplit at 1. apply deleteList_at. now rewrite <- Hsplit. }
  split; [exact E|].
  rewrite E. rewrite Hsplit at 3.
  rewrite !length_app. simpl. lia.
Qed.

Lemma X17_clickDelete_removes_that_item_witness :
  let st := run [Change (js "a"); AddTodo 7; Change (js "b"); AddTodo 8;
                 Change (js "c"); AddTodo 9] initialState in
  exists st',
    clickDelete 1 st = Some st'
    /\ todos st' = firstn 1 (todos st) ++ skipn 2 (todos st)
    /\ S (length (todos st')) = length (todos st).
Proof.
  intros st.
  apply (X17_clickDelete_removes_that_item 1 st (mkTodo 8 (js "b") false)).
  - repeat constructor; simpl; intuition discriminate.
  - reflexivity.
Defined.
